(** * Store-management dashboard: order and stock list state

    A shallow embedding of the two list components of the dashboard,
    [OrderList] (src/components/Order/OrderList.tsx) and [StockList],
    and the properties of their state transitions.

    Each React component is a record of its [useState] cells; every
    event handler is a transition on that record.  A handler that
    awaits a remote call is cut at the [await]: the part that runs
    before it, and the part that resumes with the outcome of the call. *)

From Stdlib Require Import ZArith Ascii String List Bool Lia.
From stdpp Require Import gmap strings list.
Import ListNotations.

Local Open Scope Z_scope.

(** ** JavaScript strings

    A string is a sequence of code units.  The model keeps the code
    units below 256 (the Latin-1 range), on which [toLowerCase] acts
    one code unit at a time. *)

Module JsString.

(** [String.prototype.toLowerCase] on one code unit: A-Z and the
    accented capitals U+00C0-U+00DE (U+00D7, the multiplication sign,
    has no case) move up by 32. *)
Definition toLowerChar (c : ascii) : ascii :=
  let n := N_of_ascii c in
  if (((65 <=? n) && (n <=? 90)) ||
      ((192 <=? n) && (n <=? 222) && negb (n =? 215)))%N
  then ascii_of_N (n + 32)
  else c.

Fixpoint toLowerCase (s : string) : string :=
  match s with
  | EmptyString => EmptyString
  | String c s' => String (toLowerChar c) (toLowerCase s')
  end.

(** [s.startsWith(q)]: [q] is read off the front of [s]. *)
Fixpoint startsWith (s q : string) : bool :=
  match q, s with
  | EmptyString, _ => true
  | String _ _, EmptyString => false
  | String c q', String d s' => Ascii.eqb c d && startsWith s' q'
  end.

(** [s.includes(q)]: [q] occurs at some position of [s]. *)
Fixpoint includes (s q : string) : bool :=
  startsWith s q ||
  match s with
  | EmptyString => false
  | String _ s' => includes s' q
  end.

(** [v || dflt] on an optional string: [undefined] and the empty
    string are falsy. *)
Definition orDefault (v : option string) (dflt : string) : string :=
  match v with
  | Some (String c s) => String c s
  | _ => dflt
  end.

End JsString.

(** ** Remote calls and exceptions *)

Module Http.

(** A value caught by [catch]: an [Error] object with its message, or
    anything else that was thrown. *)
Inductive Thrown : Type :=
| ErrorObject (message : string)
| OtherValue.

(** [error instanceof Error ? error.message : dflt] *)
Definition messageOf (e : Thrown) (dflt : string) : string :=
  match e with
  | ErrorObject m => m
  | OtherValue => dflt
  end.

(** The JSON envelope of the service, [{status, data | message}]. *)
Record Envelope (A : Type) : Type := mkEnvelope {
  status : string;
  data : list A;
  message : option string
}.
Arguments mkEnvelope {A} _ _ _.
Arguments status {A} _.
Arguments data {A} _.
Arguments message {A} _.

(** What [await p] yields: the promise fulfils with a value or rejects
    with a thrown one. *)
Inductive Settled (A : Type) : Type :=
| Fulfilled (v : A)
| Rejected (e : Thrown).
Arguments Fulfilled {A} _.
Arguments Rejected {A} _.

(** A [Response]: its [ok] flag (status in the 2xx range) and what
    [response.json()] settles to. *)
Record Response (B : Type) : Type := mkResponse {
  ok : bool;
  json : Settled B
}.
Arguments mkResponse {B} _ _.
Arguments ok {B} _.
Arguments json {B} _.

End Http.

(** ** Handlers: a state and exception monad

    A handler runs on the component state and completes normally with
    a value or abruptly with a thrown one. *)

Inductive Completion (A : Type) : Type :=
| Normal (a : A)
| Abrupt (e : Http.Thrown).
Arguments Normal {A} _.
Arguments Abrupt {A} _.

Definition Handler (S A : Type) : Type := S -> S * Completion A.

Declare Scope handler_scope.
Delimit Scope handler_scope with handler.
Bind Scope handler_scope with Handler.

Section HandlerOps.
Context {S : Type}.

Definition hret {A} (a : A) : Handler S A := fun s => (s, Normal a).

Definition hbind {A B} (m : Handler S A) (k : A -> Handler S B) : Handler S B :=
    fun s =>
      match m s with
      | (s', Normal a) => k a s'
      | (s', Abrupt e) => (s', Abrupt e)
      end.

Definition throw {A} (e : Http.Thrown) : Handler S A := fun s => (s, Abrupt e).

  (** A [useState] setter called with an updater function. *)
Definition modify (f : S -> S) : Handler S unit := fun s => (f s, Normal tt).

  (** Reading the state the handler closed over. *)
Definition gets {A} (f : S -> A) : Handler S A := fun s => (s, Normal (f s)).

  (** [await p] inside a handler: a rejection is thrown. *)
Definition await {A} (p : Http.Settled A) : Handler S A :=
    match p with
    | Http.Fulfilled v => hret v
    | Http.Rejected e => throw e
    end.

  (** [try { body } catch (error) { handler error }] *)
Definition tryCatch {A} (body : Handler S A) (handler : Http.Thrown -> Handler S A)
    : Handler S A :=
    fun s =>
      match body s with
      | (s', Normal a) => (s', Normal a)
      | (s', Abrupt e) => handler e s'
      end.

  (** [try { body } finally { fin }]: [fin] runs on both exits and the
      completion of [body] stands unless [fin] itself throws. *)
Definition tryFinally {A} (body : Handler S A) (fin : Handler S unit) : Handler S A :=
    fun s =>
      match body s with
      | (s', c) =>
          match fin s' with
          | (s'', Normal _) => (s'', c)
          | (s'', Abrupt e) => (s'', Abrupt e)
          end
      end.

  (** The state a handler leaves behind. *)
Definition exec {A} (m : Handler S A) (s : S) : S := fst (m s).
End HandlerOps.

Notation "x <- m ;; k" := (hbind m (fun x => k))
  (at level 100, m at next level, k at level 200, right associativity,
   only parsing) : handler_scope.
Notation "m ;; k" := (hbind m (fun _ => k))
  (at level 100, k at level 200, right associativity, only parsing) : handler_scope.

Local Open Scope handler_scope.

(** ** The order list component (OrderList.tsx) *)

Module OrderList.

(** *** Data model

    A [number] field is kept as an integer: money is in minor currency
    units and no handler below computes on these fields. *)

Module Customer.
Record t : Type := mk {
    _id : string;
    firstName : string;
    lastName : string;
    email : option string;
    phone : string;
    address : string;
    city : string;
    state : string
  }.
End Customer.

Module Product.
Record t : Type := mk {
    _id : string;
    name : string;
    productCode : string;
    description : string;
    size : string;
    color : string;
    price : Z;
    images : list string
  }.
End Product.

Module Stock.
Record t : Type := mk {
    _id : string;
    product : Product.t;
    batchNumber : string;
    quantity : Z;
    size : string;
    price : Z;
    lowStockAlert : Z;
    lastRestocked : string;
    supplier : string
  }.
End Stock.

Module OrderItem.
Record t : Type := mk {
    _id : string;
    stock : Stock.t;
    quantity : Z
  }.
End OrderItem.

Module Order.
Record t : Type := mk {
    _id : string;
    customer : Customer.t;
    items : list OrderItem.t;
    totalAmount : Z;
    status : string;
    createdAt : string;
    deletedAt : Z
  }.

  (** [{ ...order, status: newStatus }] *)
Definition withStatus (order : t) (newStatus : string) : t :=
    {| _id := _id order;
       customer := customer order;
       items := items order;
       totalAmount := totalAmount order;
       status := newStatus;
       createdAt := createdAt order;
       deletedAt := deletedAt order |}.
End Order.

(** The confirmation descriptor.  Its [onConfirm] closure is either the
    initial [() => {}] or [() => performDelete(order)]; it is kept as
    the order it is bound to. *)
Module ConfirmationConfig.
Record t : Type := mk {
    isOpen : bool;
    title : string;
    message : string;
    confirmButtonText : string;
    cancelButtonText : string;
    itemToDelete : option Order.t;
    onConfirm : option Order.t
  }.
End ConfirmationConfig.

Module ProductModalState.
Record t : Type := mk {
    isOpen : bool;
    products : list OrderItem.t
  }.
End ProductModalState.

(** One entry of [StatusUpdateState]; an order id without an entry is
    idle. *)
Module RowStatus.
Record t : Type := mk {
    isLoading : bool;
    error : option string
  }.
End RowStatus.

(** A pending [setTimeout] of [handleStatusChange].  Both callbacks
    delete [updated[orderId]]; the timer keeps the time it is due and
    the [orderId] its closure captured. *)
Module Timer.
Record t : Type := mk {
    due : Z;
    orderId : string
  }.
End Timer.

(** *** Component state

    The ten [useState] cells, then the clock (in ms) and the timer
    queue of the event loop. *)
Record State : Type := mkState {
  orders : list Order.t;
  filteredOrders : list Order.t;
  isLoading : bool;
  error : option string;
  searchQuery : string;
  statusUpdates : gmap string RowStatus.t;
  productModal : ProductModalState.t;
  currentProductIndex : Z;
  currentImageIndex : Z;
  confirmation : ConfirmationConfig.t;
  clock : Z;
  timers : list Timer.t
}.

Definition initialState : State :=
  {| orders := [];
     filteredOrders := [];
     isLoading := true;
     error := None;
     searchQuery := "";
     statusUpdates := ∅;
     productModal := ProductModalState.mk false [];
     currentProductIndex := 0;
     currentImageIndex := 0;
     confirmation :=
       ConfirmationConfig.mk false "" "" "Confirm" "Cancel" None None;
     clock := 0;
     timers := [] |}.

(** *** State setters, each applied to an updater [prev => ...] *)

Definition setOrders (f : list Order.t -> list Order.t) : Handler State unit :=
  modify (fun s =>
    mkState (f (orders s)) (filteredOrders s) (isLoading s) (error s)
      (searchQuery s) (statusUpdates s) (productModal s)
      (currentProductIndex s) (currentImageIndex s) (confirmation s)
      (clock s) (timers s)).

Definition setFilteredOrders (f : list Order.t -> list Order.t) : Handler State unit :=
  modify (fun s =>
    mkState (orders s) (f (filteredOrders s)) (isLoading s) (error s)
      (searchQuery s) (statusUpdates s) (productModal s)
      (currentProductIndex s) (currentImageIndex s) (confirmation s)
      (clock s) (timers s)).

Definition setIsLoading (v : bool) : Handler State unit :=
  modify (fun s =>
    mkState (orders s) (filteredOrders s) v (error s)
      (searchQuery s) (statusUpdates s) (productModal s)
      (currentProductIndex s) (currentImageIndex s) (confirmation s)
      (clock s) (timers s)).

Definition setError (v : option string) : Handler State unit :=
  modify (fun s =>
    mkState (orders s) (filteredOrders s) (isLoading s) v
      (searchQuery s) (statusUpdates s) (productModal s)
      (currentProductIndex s) (currentImageIndex s) (confirmation s)
      (clock s) (timers s)).

Definition setSearchQuery (v : string) : Handler State unit :=
  modify (fun s =>
    mkState (orders s) (filteredOrders s) (isLoading s) (error s)
      v (statusUpdates s) (productModal s)
      (currentProductIndex s) (currentImageIndex s) (confirmation s)
      (clock s) (timers s)).

Definition setStatusUpdates
    (f : gmap string RowStatus.t -> gmap string RowStatus.t) : Handler State unit :=
  modify (fun s =>
    mkState (orders s) (filteredOrders s) (isLoading s) (error s)
      (searchQuery s) (f (statusUpdates s)) (productModal s)
      (currentProductIndex s) (currentImageIndex s) (confirmation s)
      (clock s) (timers s)).

Definition setProductModal
    (f : ProductModalState.t -> ProductModalState.t) : Handler State unit :=
  modify (fun s =>
    mkState (orders s) (filteredOrders s) (isLoading s) (error s)
      (searchQuery s) (statusUpdates s) (f (productModal s))
      (currentProductIndex s) (currentImageIndex s) (confirmation s)
      (clock s) (timers s)).

Definition setCurrentProductIndex (f : Z -> Z) : Handler State unit :=
  modify (fun s =>
    mkState (orders s) (filteredOrders s) (isLoading s) (error s)
      (searchQuery s) (statusUpdates s) (productModal s)
      (f (currentProductIndex s)) (currentImageIndex s) (confirmation s)
      (clock s) (timers s)).

Definition setCurrentImageIndex (f : Z -> Z) : Handler State unit :=
  modify (fun s =>
    mkState (orders s) (filteredOrders s) (isLoading s) (error s)
      (searchQuery s) (statusUpdates s) (productModal s)
      (currentProductIndex s) (f (currentImageIndex s)) (confirmation s)
      (clock s) (timers s)).

Definition setConfirmation
    (f : ConfirmationConfig.t -> ConfirmationConfig.t) : Handler State unit :=
  modify (fun s =>
    mkState (orders s) (filteredOrders s) (isLoading s) (error s)
      (searchQuery s) (statusUpdates s) (productModal s)
      (currentProductIndex s) (currentImageIndex s) (f (confirmation s))
      (clock s) (timers s)).

(** *** Timers *)

(** The queue is kept in the order the timers fire: a new timer goes
    behind every timer that is due no later than it. *)
Fixpoint enqueue (t : Timer.t) (q : list Timer.t) : list Timer.t :=
  match q with
  | [] => [t]
  | t' :: q' =>
      if Timer.due t' <=? Timer.due t then t' :: enqueue t q' else t :: t' :: q'
  end.

(** [setTimeout(() => setStatusUpdates(prev => { delete prev[orderId] }), delay)] *)
Definition setTimeout (orderId : string) (delay : Z) : Handler State unit :=
  modify (fun s =>
    mkState (orders s) (filteredOrders s) (isLoading s) (error s)
      (searchQuery s) (statusUpdates s) (productModal s)
      (currentProductIndex s) (currentImageIndex s) (confirmation s)
      (clock s) (enqueue (Timer.mk (clock s + delay) orderId) (timers s))).

(** The callback of a timer:
    [prev => { const updated = { ...prev }; delete updated[orderId]; return updated }] *)
Definition timerCallback (t : Timer.t) : Handler State unit :=
  setStatusUpdates (fun prev => delete (Timer.orderId t) prev).

(** Time passes until [time]: every timer due by then fires, in queue
    order, and leaves the queue. *)
Fixpoint fireDue (time : Z) (q : list Timer.t) (s : State) : list Timer.t * State :=
  match q with
  | [] => ([], s)
  | t :: q' =>
      if Timer.due t <=? time
      then fireDue time q' (exec (timerCallback t) s)
      else let (rest, s') := fireDue time q' s in (t :: rest, s')
  end.

Definition advanceTo (time : Z) (s : State) : State :=
  let (rest, s') := fireDue time (timers s) s in
  mkState (orders s') (filteredOrders s') (isLoading s') (error s')
    (searchQuery s') (statusUpdates s') (productModal s')
    (currentProductIndex s') (currentImageIndex s') (confirmation s')
    (Z.max (clock s) time) rest.

(** *** Initial load ([loadData], in the mount effect) *)

Definition loadData_begin : Handler State unit :=
  (setIsLoading true;;
   setError None).

(** The rest of [loadData], resumed with what
    [fetch('.../order/all-orders')] settled to. *)
Definition loadData_resume
    (fetched : Http.Settled (Http.Response (Http.Envelope Order.t)))
  : Handler State unit :=
  tryFinally
    (tryCatch
       (response <- await fetched;;
        (if negb (Http.ok response)
         then throw (Http.ErrorObject "Failed to fetch orders")
         else hret tt);;
        result <- await (Http.json response);;
        if String.eqb (Http.status result) "SUCCESS"
        then
          setOrders (fun _ => Http.data result);;
          setFilteredOrders (fun _ => Http.data result)
        else
          throw (Http.ErrorObject
                   (JsString.orDefault (Http.message result) "Failed to fetch orders")))
       (fun error =>
          setError (Some (Http.messageOf error "An unknown error occurred"))))
    (setIsLoading false).

Definition loadData
    (fetched : Http.Settled (Http.Response (Http.Envelope Order.t)))
  : Handler State unit :=
  (loadData_begin;;
   loadData_resume fetched).

(** *** Status update ([handleStatusChange]) *)

(** [order => order._id === orderId ? { ...order, status: newStatus } : order] *)
Definition replaceStatus (orderId newStatus : string) (order : Order.t) : Order.t :=
  if String.eqb (Order._id order) orderId
  then Order.withStatus order newStatus
  else order.

(** Up to the [await]: the row shows its spinner. *)
Definition handleStatusChange_begin (orderId : string) : Handler State unit :=
  setStatusUpdates (fun prev => <[orderId := RowStatus.mk true None]> prev).

(** From the [await] on, with what the PUT settled to. *)
Definition handleStatusChange_resume {B : Type}
    (orderId newStatus : string) (fetched : Http.Settled (Http.Response B))
  : Handler State unit :=
  tryCatch
    (response <- await fetched;;
     (if negb (Http.ok response)
      then throw (Http.ErrorObject "Failed to update order status")
      else hret tt);;
     setOrders (fun prevOrders => map (replaceStatus orderId newStatus) prevOrders);;
     setFilteredOrders (fun prevOrders => map (replaceStatus orderId newStatus) prevOrders);;
     setStatusUpdates (fun prev => <[orderId := RowStatus.mk false None]> prev);;
     setTimeout orderId 2000)
    (fun error =>
       setStatusUpdates (fun prev =>
         <[orderId := RowStatus.mk false
                        (Some (Http.messageOf error "Failed to update status"))]> prev);;
       setTimeout orderId 3000).

Definition handleStatusChange {B : Type}
    (orderId newStatus : string) (fetched : Http.Settled (Http.Response B))
  : Handler State unit :=
  (handleStatusChange_begin orderId;;
   handleStatusChange_resume orderId newStatus fetched).

(** *** Product browse overlay *)

Definition jsLength {A : Type} (l : list A) : Z := Z.of_nat (length l).

(** [l[i]]: [undefined] outside the array. *)
Definition jsIndex {A : Type} (l : list A) (i : Z) : option A :=
  if i <? 0 then None else l !! Z.to_nat i.

Definition handleViewProducts (items : list OrderItem.t) : Handler State unit :=
  (setProductModal (fun _ => ProductModalState.mk true items);;
   setCurrentProductIndex (fun _ => 0);;
   setCurrentImageIndex (fun _ => 0)).

Definition closeProductModal : Handler State unit :=
  setProductModal (fun prev =>
    ProductModalState.mk false (ProductModalState.products prev)).

(** [%] is the remainder of JavaScript, with the sign of the dividend. *)
Definition goToNextProduct : Handler State unit :=
  (products <- gets (fun s => ProductModalState.products (productModal s));;
   if 1 <? jsLength products
   then
     setCurrentProductIndex (fun prev => Z.rem (prev + 1) (jsLength products));;
     setCurrentImageIndex (fun _ => 0)
   else hret tt).

Definition goToPrevProduct : Handler State unit :=
  (products <- gets (fun s => ProductModalState.products (productModal s));;
   if 1 <? jsLength products
   then
     setCurrentProductIndex (fun prev =>
       Z.rem (prev - 1 + jsLength products) (jsLength products));;
     setCurrentImageIndex (fun _ => 0)
   else hret tt).

(** [productModal.products[currentProductIndex]?.stock.product] *)
Definition currentProduct (s : State) : option Product.t :=
  match jsIndex (ProductModalState.products (productModal s)) (currentProductIndex s) with
  | Some item => Some (Stock.product (OrderItem.stock item))
  | None => None
  end.

Definition goToNextImage : Handler State unit :=
  (current <- gets currentProduct;;
   match current with
   | Some p =>
       if 1 <? jsLength (Product.images p)
       then setCurrentImageIndex (fun prev =>
              Z.rem (prev + 1) (jsLength (Product.images p)))
       else hret tt
   | None => hret tt
   end).

Definition goToPrevImage : Handler State unit :=
  (current <- gets currentProduct;;
   match current with
   | Some p =>
       if 1 <? jsLength (Product.images p)
       then setCurrentImageIndex (fun prev =>
              Z.rem (prev - 1 + jsLength (Product.images p))
                    (jsLength (Product.images p)))
       else hret tt
   | None => hret tt
   end).

(** *** Delete confirmation *)

Definition dquote : string := String "034" EmptyString.

Definition handleDelete (order : Order.t) : Handler State unit :=
  setConfirmation (fun _ =>
    ConfirmationConfig.mk true
      "Confirm Deletion"
      ("Are you sure you want to delete order for " +:+ dquote +:+
       Customer.firstName (Order.customer order) +:+ " " +:+
       Customer.lastName (Order.customer order) +:+ dquote +:+
       "? This action can be reversed later.")
      "Delete"
      "Cancel"
      (Some order)
      (Some order)).

Definition closeConfirmationModal : Handler State unit :=
  setConfirmation (fun prev =>
    ConfirmationConfig.mk false
      (ConfirmationConfig.title prev)
      (ConfirmationConfig.message prev)
      (ConfirmationConfig.confirmButtonText prev)
      (ConfirmationConfig.cancelButtonText prev)
      (ConfirmationConfig.itemToDelete prev)
      (ConfirmationConfig.onConfirm prev)).

(** [o => o._id !== order._id] *)
Definition otherThan (order o : Order.t) : bool :=
  negb (String.eqb (Order._id o) (Order._id order)).

(** [performDelete], resumed with what the DELETE settled to. *)
Definition performDelete {B : Type}
    (order : Order.t) (fetched : Http.Settled (Http.Response B))
  : Handler State unit :=
  tryFinally
    (tryCatch
       (response <- await fetched;;
        (if negb (Http.ok response)
         then throw (Http.ErrorObject "Failed to delete order")
         else hret tt);;
        setOrders (fun prevOrders => List.filter (otherThan order) prevOrders);;
        setFilteredOrders (fun prevOrders => List.filter (otherThan order) prevOrders))
       (fun error =>
          setError (Some (Http.messageOf error "An unknown error occurred"))))
    closeConfirmationModal.

(** The bound commit action of the descriptor. *)
Definition confirm {B : Type} (fetched : Http.Settled (Http.Response B))
  : Handler State unit :=
  (bound <- gets (fun s => ConfirmationConfig.onConfirm (confirmation s));;
   match bound with
   | Some order => performDelete order fetched
   | None => hret tt
   end).

(** *** Search *)

(** The predicate of [handleSearch]. *)
Definition orderMatches (query : string) (order : Order.t) : bool :=
  let customer := Order.customer order in
  JsString.includes (JsString.toLowerCase (Customer.firstName customer))
                    (JsString.toLowerCase query) ||
  JsString.includes (JsString.toLowerCase (Customer.lastName customer))
                    (JsString.toLowerCase query) ||
  JsString.includes (JsString.toLowerCase (Order.status order))
                    (JsString.toLowerCase query) ||
  match Customer.email customer with
  | Some email =>
      JsString.includes (JsString.toLowerCase email) (JsString.toLowerCase query)
  | None => false
  end ||
  JsString.includes (Customer.phone customer) query.

(** The debounced callback when it fires: it filters the [orders] its
    closure captured. *)
Definition runSearch (captured : list Order.t) (query : string) : Handler State unit :=
  setFilteredOrders (fun _ => List.filter (orderMatches query) captured).

(** The callback built from the current [orders]
    ([useCallback(..., [orders])]). *)
Definition handleSearch (query : string) : Handler State unit :=
  (captured <- gets orders;;
   runSearch captured query).

(** The input's change handler stores the query; the debounced
    [handleSearch query] fires 300 ms after the last keystroke. *)
Definition handleSearchInputChange (query : string) : Handler State unit :=
  setSearchQuery query.

(** *** Rendering *)

(** Truthiness of a [string | null] cell: [null] and the empty string
    are falsy. *)
Definition truthy (v : option string) : bool :=
  match v with
  | Some (String _ _) => true
  | _ => false
  end.

(** What the Status column shows for a row: the select with its value
    and [disabled] flag, then the spinner, the check mark and the
    "Failed" label, each under its own condition. *)
Module StatusCell.
Record t : Type := mk {
  value : string;
  disabled : bool;
  spinner : bool;
  check : bool;
  failed : bool
}.
End StatusCell.

Definition statusCell (s : State) (item : Order.t) : StatusCell.t :=
  let entry := statusUpdates s !! Order._id item in
  StatusCell.mk
    (Order.status item)
    (match entry with Some r => RowStatus.isLoading r | None => false end)
    (match entry with Some r => RowStatus.isLoading r | None => false end)
    (match entry with
     | Some r => negb (RowStatus.isLoading r) && negb (truthy (RowStatus.error r))
     | None => false
     end)
    (match entry with Some r => truthy (RowStatus.error r) | None => false end).

(** What stands below the search box. *)
Inductive Body : Type :=
| NoOrdersFound
| DataTable (data : list Order.t)
| NoBody.

Module Page.
Record t : Type := mk {
  banner : option string;
  body : Body;
  confirmationOpen : bool;
  productModalOpen : bool
}.
End Page.



(** *** The component as a transition system

    One event per handler half, timer expiry and debounced search.  A
    settle event may carry any id or order, so the traces of the
    component are among the traces below. *)
Inductive Event : Type :=
| LoadStarted
| LoadSettled (fetched : Http.Settled (Http.Response (Http.Envelope Order.t)))
| StatusSelected (orderId : string)
| StatusSettled (orderId newStatus : string)
    (fetched : Http.Settled (Http.Response unit))
| TimePassed (time : Z)
| ProductsViewed (items : list OrderItem.t)
| ProductModalClosed
| NextProduct
| PrevProduct
| NextImage
| PrevImage
| DeleteRequested (order : Order.t)
| DeleteCancelled
| DeleteSettled (order : Order.t) (fetched : Http.Settled (Http.Response unit))
| SearchTyped (query : string)
| SearchFired (query : string).

Definition step (e : Event) (s : State) : State :=
  match e with
  | LoadStarted => exec loadData_begin s
  | LoadSettled fetched => exec (loadData_resume fetched) s
  | StatusSelected orderId => exec (handleStatusChange_begin orderId) s
  | StatusSettled orderId newStatus fetched =>
      exec (handleStatusChange_resume orderId newStatus fetched) s
  | TimePassed time => advanceTo time s
  | ProductsViewed items => exec (handleViewProducts items) s
  | ProductModalClosed => exec closeProductModal s
  | NextProduct => exec goToNextProduct s
  | PrevProduct => exec goToPrevProduct s
  | NextImage => exec goToNextImage s
  | PrevImage => exec goToPrevImage s
  | DeleteRequested order => exec (handleDelete order) s
  | DeleteCancelled => exec closeConfirmationModal s
  | DeleteSettled order fetched => exec (performDelete order fetched) s
  | SearchTyped query => exec (handleSearchInputChange query) s
  | SearchFired query => exec (handleSearch query) s
  end.

Definition run (events : list Event) (s : State) : State :=
  fold_left (fun s e => step e s) events s.

End OrderList.

(** ** The stock list component (StockList) *)

Module StockList.

Module Product.
Record t : Type := mk {
  _id : string;
  name : string;
  productCode : string;
  description : string;
  size : string;
  color : string;
  price : Z;
  category : string;
  images : list string;
  createdAt : string
}.
End Product.

Module Stock.
Record t : Type := mk {
  _id : string;
  product : Product.t;
  batchNumber : string;
  quantity : Z;
  size : string;
  price : Z;
  lowStockAlert : Z;
  lastRestocked : string;
  supplier : string;
  createdAt : string
}.
End Stock.

Module ConfirmationConfig.
Record t : Type := mk {
  isOpen : bool;
  title : string;
  message : string;
  confirmButtonText : string;
  cancelButtonText : string;
  itemToDelete : option Stock.t;
  onConfirm : option Stock.t
}.
End ConfirmationConfig.

Record State : Type := mkState {
  stocks : list Stock.t;
  filteredStocks : list Stock.t;
  isLoading : bool;
  error : option string;
  searchQuery : string;
  selectedProduct : option Product.t;
  stockToEdit : option Stock.t;
  confirmation : ConfirmationConfig.t
}.

Definition initialState : State :=
  {| stocks := [];
     filteredStocks := [];
     isLoading := true;
     error := None;
     searchQuery := "";
     selectedProduct := None;
     stockToEdit := None;
     confirmation :=
       ConfirmationConfig.mk false "" "" "Confirm" "Cancel" None None |}.

Definition setStocks (f : list Stock.t -> list Stock.t) : Handler State unit :=
  modify (fun s =>
    mkState (f (stocks s)) (filteredStocks s) (isLoading s) (error s)
      (searchQuery s) (selectedProduct s) (stockToEdit s) (confirmation s)).

Definition setFilteredStocks (f : list Stock.t -> list Stock.t) : Handler State unit :=
  modify (fun s =>
    mkState (stocks s) (f (filteredStocks s)) (isLoading s) (error s)
      (searchQuery s) (selectedProduct s) (stockToEdit s) (confirmation s)).

Definition setIsLoading (v : bool) : Handler State unit :=
  modify (fun s =>
    mkState (stocks s) (filteredStocks s) v (error s)
      (searchQuery s) (selectedProduct s) (stockToEdit s) (confirmation s)).

Definition setError (v : option string) : Handler State unit :=
  modify (fun s =>
    mkState (stocks s) (filteredStocks s) (isLoading s) v
      (searchQuery s) (selectedProduct s) (stockToEdit s) (confirmation s)).

Definition setSearchQuery (v : string) : Handler State unit :=
  modify (fun s =>
    mkState (stocks s) (filteredStocks s) (isLoading s) (error s)
      v (selectedProduct s) (stockToEdit s) (confirmation s)).

Definition setSelectedProduct (v : option Product.t) : Handler State unit :=
  modify (fun s =>
    mkState (stocks s) (filteredStocks s) (isLoading s) (error s)
      (searchQuery s) v (stockToEdit s) (confirmation s)).

Definition setStockToEdit (v : option Stock.t) : Handler State unit :=
  modify (fun s =>
    mkState (stocks s) (filteredStocks s) (isLoading s) (error s)
      (searchQuery s) (selectedProduct s) v (confirmation s)).

Definition setConfirmation
    (f : ConfirmationConfig.t -> ConfirmationConfig.t) : Handler State unit :=
  modify (fun s =>
    mkState (stocks s) (filteredStocks s) (isLoading s) (error s)
      (searchQuery s) (selectedProduct s) (stockToEdit s) (f (confirmation s))).

(** *** Initial load ([fetchStocks], in the mount effect) *)

Definition fetchStocks_begin : Handler State unit :=
  setIsLoading true;;
  setError None.

Definition fetchStocks_resume
    (fetched : Http.Settled (Http.Response (Http.Envelope Stock.t)))
  : Handler State unit :=
  tryFinally
    (tryCatch
       (response <- await fetched;;
        (if negb (Http.ok response)
         then throw (Http.ErrorObject "Failed to fetch stocks")
         else hret tt);;
        data <- await (Http.json response);;
        if String.eqb (Http.status data) "SUCCESS"
        then
          setStocks (fun _ => Http.data data);;
          setFilteredStocks (fun _ => Http.data data)
        else
          throw (Http.ErrorObject
                   (JsString.orDefault (Http.message data) "Unknown error occurred")))
       (fun error =>
          setError (Some (Http.messageOf error "An unknown error occurred"))))
    (setIsLoading false).

Definition fetchStocks
    (fetched : Http.Settled (Http.Response (Http.Envelope Stock.t)))
  : Handler State unit :=
  fetchStocks_begin;;
  fetchStocks_resume fetched.

Definition handleProductView (product : Product.t) : Handler State unit :=
  setSelectedProduct (Some product).

Definition handleEdit (stock : Stock.t) : Handler State unit :=
  setStockToEdit (Some stock).

(** *** Delete confirmation *)

Definition dquote : string := String "034" EmptyString.

Definition handleDelete (stock : Stock.t) : Handler State unit :=
  setConfirmation (fun _ =>
    ConfirmationConfig.mk true
      "Confirm Deletion"
      ("Are you sure you want to delete stock for " +:+ dquote +:+
       Product.name (Stock.product stock) +:+ dquote +:+ " (" +:+
       Stock.batchNumber stock +:+
       ")? This action can be reversed later.")
      "Delete"
      "Cancel"
      (Some stock)
      (Some stock)).

Definition closeConfirmationModal : Handler State unit :=
  setConfirmation (fun prev =>
    ConfirmationConfig.mk false
      (ConfirmationConfig.title prev)
      (ConfirmationConfig.message prev)
      (ConfirmationConfig.confirmButtonText prev)
      (ConfirmationConfig.cancelButtonText prev)
      (ConfirmationConfig.itemToDelete prev)
      (ConfirmationConfig.onConfirm prev)).

(** [s => s._id !== stock._id] *)
Definition otherThan (stock s : Stock.t) : bool :=
  negb (String.eqb (Stock._id s) (Stock._id stock)).

Definition performDelete {B : Type}
    (stock : Stock.t) (fetched : Http.Settled (Http.Response B))
  : Handler State unit :=
  tryFinally
    (tryCatch
       (response <- await fetched;;
        (if negb (Http.ok response)
         then throw (Http.ErrorObject "Failed to delete stock")
         else hret tt);;
        setStocks (fun prev => List.filter (otherThan stock) prev);;
        setFilteredStocks (fun prev => List.filter (otherThan stock) prev))
       (fun error =>
          setError (Some (Http.messageOf error "An unknown error occurred"))))
    closeConfirmationModal.

Definition confirm {B : Type} (fetched : Http.Settled (Http.Response B))
  : Handler State unit :=
  bound <- gets (fun s => ConfirmationConfig.onConfirm (confirmation s));;
  match bound with
  | Some stock => performDelete stock fetched
  | None => hret tt
  end.

(** *** Search *)

(** The predicate of [handleSearch]. *)
Definition stockMatches (query : string) (stock : Stock.t) : bool :=
  JsString.includes (JsString.toLowerCase (Product.name (Stock.product stock)))
                    (JsString.toLowerCase query) ||
  JsString.includes (JsString.toLowerCase (Product.productCode (Stock.product stock)))
                    (JsString.toLowerCase query) ||
  JsString.includes (JsString.toLowerCase (Stock.batchNumber stock))
                    (JsString.toLowerCase query) ||
  JsString.includes (JsString.toLowerCase (Stock.supplier stock))
                    (JsString.toLowerCase query).

(** The debounced callback when it fires, on the [stocks] its closure
    captured. *)
Definition runSearch (captured : list Stock.t) (query : string) : Handler State unit :=
  setFilteredStocks (fun _ => List.filter (stockMatches query) captured).

(** The callback built in the current render. *)
Definition handleSearch (query : string) : Handler State unit :=
  captured <- gets stocks;;
  runSearch captured query.

Definition handleSearchInputChange (query : string) : Handler State unit :=
  setSearchQuery query.

End StockList.

(** * Specification vocabulary *)







(** The filtered collection is the search predicate of query [q]
    applied to the canonical collection. *)
Definition filterInSync (q : string) (s : OrderList.State) : Prop :=
  OrderList.filteredOrders s =
  List.filter (OrderList.orderMatches q) (OrderList.orders s).

(** Every element of the filtered collection satisfies the search
    predicate of query [q]. *)
Definition allMatch (q : string) (s : OrderList.State) : Prop :=
  forall o, In o (OrderList.filteredOrders s) -> OrderList.orderMatches q o = true.

(** A timer that is due by [time] and whose closure holds [id]. *)
Definition firesFor (time : Z) (id : string) (t : OrderList.Timer.t) : bool :=
  (OrderList.Timer.due t <=? time) && String.eqb (OrderList.Timer.orderId t) id.


(** The records whose id is not [id]. *)
Definition differsFrom {A : Type} (id_of : A -> string) (id : string) (x : A) : bool :=
  negb (String.eqb (id_of x) id).

(** A remote call succeeded: the promise fulfilled with a response
    whose status is in the 2xx range. *)
Definition succeeded {B : Type} (fetched : Http.Settled (Http.Response B)) : bool :=
  match fetched with
  | Http.Fulfilled r => Http.ok r
  | Http.Rejected _ => false
  end.


(** [o'] is a copy of [o] whose status field is [S]. *)
Definition copyWithStatus (S : string) (o o' : OrderList.Order.t) : Prop :=
  OrderList.Order.status o' = S /\
  OrderList.Order._id o' = OrderList.Order._id o /\
  OrderList.Order.customer o' = OrderList.Order.customer o /\
  OrderList.Order.items o' = OrderList.Order.items o /\
  OrderList.Order.totalAmount o' = OrderList.Order.totalAmount o /\
  OrderList.Order.createdAt o' = OrderList.Order.createdAt o /\
  OrderList.Order.deletedAt o' = OrderList.Order.deletedAt o.

(** [after] is [before] with the record of id [X] replaced, position
    by position, by a copy with status [S], and nothing else touched. *)
Definition replacedById (X S : string) (before after : list OrderList.Order.t) : Prop :=
  length after = length before /\
  forall (i : nat) (o : OrderList.Order.t),
    before !! i = Some o ->
    (OrderList.Order._id o = X ->
       exists o', after !! i = Some o' /\ copyWithStatus S o o') /\
    (OrderList.Order._id o <> X -> after !! i = Some o).


(** How many images the current item of the overlay has; none when
    there is no current item. *)
Definition imagesOfCurrent (s : OrderList.State) : Z :=
  match OrderList.currentProduct s with
  | Some p => OrderList.jsLength (OrderList.Product.images p)
  | None => 0
  end.

(** Both overlay indices point inside what they index (and are 0 over
    an empty sequence). *)
Definition indicesInRange (s : OrderList.State) : Prop :=
  0 <= OrderList.currentProductIndex s <
    Z.max 1 (OrderList.jsLength
               (OrderList.ProductModalState.products (OrderList.productModal s))) /\
  0 <= OrderList.currentImageIndex s < Z.max 1 (imagesOfCurrent s).

(** Every row that shows a settled mark (success or error) has a timer
    pending that will clear it. *)
Definition settledMarksHaveTimers (s : OrderList.State) : Prop :=
  forall id r,
    OrderList.statusUpdates s !! id = Some r ->
    OrderList.RowStatus.isLoading r = false ->
    exists t, In t (OrderList.timers s) /\ OrderList.Timer.orderId t = id.

(** No pending timer is due more than 3000 ms ahead. *)
Definition timersWithin3000 (s : OrderList.State) : Prop :=
  forall t, In t (OrderList.timers s) ->
    OrderList.Timer.due t <= OrderList.clock s + 3000.

(** * Scenarios *)

Module Scenario.
Import OrderList.


Definition orderA : Order.t :=
  Order.mk "a"
    (Customer.mk "c1" "Ann" "Lee" (Some "ann@example.com") "0711111111"
       "1 Main St" "Galle" "SP")
    [] 1500 "Pending" "2025-01-01T00:00:00Z" 0.

Definition orderB : Order.t :=
  Order.mk "b"
    (Customer.mk "c2" "Bo" "Silva" None "0722222222" "2 Lake Rd" "Kandy" "CP")
    [] 2500 "Pending" "2025-01-02T00:00:00Z" 0.

(** A 2xx response whose body is not read. *)
Definition okResponse : Http.Settled (Http.Response unit) :=
  Http.Fulfilled (Http.mkResponse true (Http.Fulfilled tt)).


(** The list loaded with the two pending orders. *)
Definition loaded : State :=
  exec (loadData
          (Http.Fulfilled
             (Http.mkResponse true
                (Http.Fulfilled (Http.mkEnvelope "SUCCESS" [orderA; orderB] None)))))
       initialState.

(** "pending" typed in the search box, and the debounced search fired. *)
Definition searchedPending : State :=
  exec (handleSearch "pending") (exec (handleSearchInputChange "pending") loaded).

(** Then order "a" set to Shipped, with the remote call succeeding. *)
Definition shippedA : State :=
  exec (handleStatusChange "a" "Shipped" okResponse) searchedPending.

(** Three line items, and the overlay opened on them and on one. *)
Definition shirt : Product.t :=
  Product.mk "p1" "Linen Shirt" "LS-01" "Plain linen shirt" "M" "White" 4500
    ["shirt-front.png"; "shirt-back.png"].

Definition item (id : string) (quantity : Z) : OrderItem.t :=
  OrderItem.mk id
    (Stock.mk "s1" shirt "B-100" 40 "M" 4500 5 "2025-01-01T00:00:00Z" "Acme Textiles")
    quantity.

Definition browsingThree : State :=
  exec (handleViewProducts [item "i1" 1; item "i2" 2; item "i3" 1]) loaded.

Definition browsingOne : State :=
  exec (handleViewProducts [item "i1" 1]) loaded.

(** A stock batch and the stock list loaded with it. *)
Definition batch : StockList.Stock.t :=
  StockList.Stock.mk "s1"
    (StockList.Product.mk "p1" "Linen Shirt" "LS-01" "Plain linen shirt" "M" "White"
       4500 "Shirts" ["shirt-front.png"] "2025-01-01T00:00:00Z")
    "B-100" 40 "M" 4500 5 "2025-01-01T00:00:00Z" "Acme Textiles"
    "2025-01-01T00:00:00Z".

Definition stockLoaded : StockList.State :=
  exec (StockList.fetchStocks
          (Http.Fulfilled
             (Http.mkResponse true
                (Http.Fulfilled (Http.mkEnvelope "SUCCESS" [batch] None)))))
       StockList.initialState.

End Scenario.

(** * Properties *)

(** ** Strings *)

Section StringFacts.
Import JsString.







End StringFacts.

(** ** Lists *)

Section ListFacts.
Context {A : Type}.

Lemma lookup_map {B : Type} (f : A -> B) (l : list A) (i : nat) :
  map f l !! i = f <$> (l !! i).
Proof.
  revert i; induction l as [|x l IH]; intros [|i]; simpl; auto.
Qed.

Lemma filter_sublist (p : A -> bool) (l : list A) :
  List.filter p l `sublist_of` l.
Proof.
  induction l as [|x l IH]; simpl; [constructor|].
  destruct (p x); now constructor.
Qed.


Lemma filter_comm (p q : A -> bool) (l : list A) :
  List.filter p (List.filter q l) = List.filter q (List.filter p l).
Proof.
  induction l as [|x l IH]; simpl; [reflexivity|].
  destruct (p x) eqn:Hp, (q x) eqn:Hq; simpl; rewrite ?Hp, ?Hq; congruence.
Qed.


Variable id_of : A -> string.


End ListFacts.

(** ** Status update *)

Section StatusUpdateFacts.
Import OrderList.

(** The state after a successful update. *)
Lemma handleStatusChange_resume_success {B : Type}
    (X S : string) (fetched : Http.Settled (Http.Response B)) (s : State) :
  succeeded fetched = true ->
  exec (handleStatusChange_resume X S fetched) s =
    mkState (map (replaceStatus X S) (orders s))
      (map (replaceStatus X S) (filteredOrders s))
      (isLoading s) (error s) (searchQuery s)
      (<[X := RowStatus.mk false None]> (statusUpdates s))
      (productModal s) (currentProductIndex s) (currentImageIndex s)
      (confirmation s) (clock s)
      (enqueue (Timer.mk (clock s + 2000) X) (timers s)).
Proof.
  destruct fetched as [r|e]; simpl; [|discriminate].
  intros Hok. unfold exec, handleStatusChange_resume, tryCatch, hbind. simpl.
  rewrite Hok. reflexivity.
Qed.

(** The state after a failed update. *)
Lemma handleStatusChange_resume_failure {B : Type}
    (X S : string) (fetched : Http.Settled (Http.Response B)) (s : State) :
  succeeded fetched = false ->
  exists msg,
    exec (handleStatusChange_resume X S fetched) s =
      mkState (orders s) (filteredOrders s)
        (isLoading s) (error s) (searchQuery s)
        (<[X := RowStatus.mk false (Some msg)]> (statusUpdates s))
        (productModal s) (currentProductIndex s) (currentImageIndex s)
        (confirmation s) (clock s)
        (enqueue (Timer.mk (clock s + 3000) X) (timers s)).
Proof.
  destruct fetched as [r|e]; simpl.
  - intros Hok. exists "Failed to update order status"%string.
    unfold exec, handleStatusChange_resume, tryCatch, hbind. simpl.
    rewrite Hok. reflexivity.
  - intros _. exists (Http.messageOf e "Failed to update status"). reflexivity.
Qed.

(** The handler is its two halves, one after the other. *)
Lemma handleStatusChange_halves {B : Type}
    (X S : string) (fetched : Http.Settled (Http.Response B)) (s : State) :
  exec (handleStatusChange X S fetched) s =
  exec (handleStatusChange_resume X S fetched) (exec (handleStatusChange_begin X) s).
Proof. reflexivity. Qed.

(** Idle to Loading: the first half touches the row of the id only. *)
Lemma handleStatusChange_begin_loading (X : string) (s : State) :
  statusUpdates (exec (handleStatusChange_begin X) s) !! X
    = Some (RowStatus.mk true None) /\
  orders (exec (handleStatusChange_begin X) s) = orders s /\
  filteredOrders (exec (handleStatusChange_begin X) s) = filteredOrders s.
Proof. simpl. split; [apply lookup_insert_eq | auto]. Qed.

Lemma replacedById_map (X S : string) (l : list Order.t) :
  replacedById X S l (map (replaceStatus X S) l).
Proof.
  split; [apply length_map|].
  intros i o Hi. rewrite lookup_map, Hi. unfold replaceStatus. simpl.
  destruct (String.eqb_spec (Order._id o) X) as [Heq|Hne]; split; try congruence.
  intros _. exists (Order.withStatus o S). split; [reflexivity|].
  unfold copyWithStatus. simpl. tauto.
Qed.

(** C1: a successful status update of order id [X] to [S] replaces, in
    the canonical and in the filtered collection alike, the record
    whose [_id] is [X] by a copy whose status is [S]; the collections
    keep their length and every other record stays as it was. *)
Theorem status_update_success_replaces_by_id {B : Type}
    (X S : string) (fetched : Http.Settled (Http.Response B)) (s : State) :
  succeeded fetched = true ->
  let s' := exec (handleStatusChange_resume X S fetched) s in
  replacedById X S (orders s) (orders s') /\
  replacedById X S (filteredOrders s) (filteredOrders s').
Proof.
  intros Hok s'. subst s'. rewrite (handleStatusChange_resume_success X S fetched s Hok).
  simpl. split; apply replacedById_map.
Qed.


End StatusUpdateFacts.

(** ** Initial load *)

Ltac run_handler :=
  unfold exec, tryFinally, tryCatch, hbind, await, throw, hret, modify, gets; simpl.


(** ** Search *)








(** ** Delete, and what a change of the canonical collection does to
    the filtered one *)

Section DeleteFacts.
Import OrderList.

Lemma performDelete_success {B : Type}
    (order : Order.t) (fetched : Http.Settled (Http.Response B)) (s : State) :
  succeeded fetched = true ->
  orders (exec (performDelete order fetched) s) =
    List.filter (differsFrom Order._id (Order._id order)) (orders s) /\
  filteredOrders (exec (performDelete order fetched) s) =
    List.filter (differsFrom Order._id (Order._id order)) (filteredOrders s) /\
  error (exec (performDelete order fetched) s) = error s.
Proof.
  destruct fetched as [r|e]; simpl; [|discriminate].
  intros Hok. unfold performDelete. run_handler. rewrite Hok. simpl. auto.
Qed.


Lemma stock_performDelete_success {B : Type}
    (stock : StockList.Stock.t) (fetched : Http.Settled (Http.Response B))
    (t : StockList.State) :
  succeeded fetched = true ->
  StockList.stocks (exec (StockList.performDelete stock fetched) t) =
    List.filter (differsFrom StockList.Stock._id (StockList.Stock._id stock))
      (StockList.stocks t) /\
  StockList.filteredStocks (exec (StockList.performDelete stock fetched) t) =
    List.filter (differsFrom StockList.Stock._id (StockList.Stock._id stock))
      (StockList.filteredStocks t).
Proof.
  destruct fetched as [r|e]; simpl; [|discriminate].
  intros Hok. unfold StockList.performDelete. run_handler. rewrite Hok. simpl. auto.
Qed.


(** Confirming the descriptor that [handleDelete order] raised runs
    [performDelete order]. *)
Lemma confirm_after_handleDelete {B : Type}
    (order : Order.t) (fetched : Http.Settled (Http.Response B)) (s : State) :
  confirm fetched (exec (handleDelete order) s) =
  performDelete order fetched (exec (handleDelete order) s).
Proof. reflexivity. Qed.


Lemma replaceStatus_other (X S : string) (o : Order.t) :
  Order._id (replaceStatus X S o) <> X -> replaceStatus X S o = o.
Proof.
  unfold replaceStatus.
  destruct (String.eqb_spec (Order._id o) X) as [Heq|Hne]; simpl; congruence.
Qed.

(** C5, as the code has it: a change of the canonical collection does
    not recompute the filtered collection; the filtered collection
    takes the same change by id.  With the filtered collection in sync
    with the predicate of a query, a successful delete leaves it in
    sync, every element matching; a successful status update leaves the
    old filtered collection with the record of that id replaced, in
    which every element of another id still matches. *)
Theorem canonical_change_reaches_filtered_by_id {B : Type}
    (q : string) (s : State) (order : Order.t) (X S : string)
    (fetched : Http.Settled (Http.Response B)) :
  filterInSync q s ->
  succeeded fetched = true ->
  let d := exec (performDelete order fetched) s in
  let u := exec (handleStatusChange_resume X S fetched) s in
  (filterInSync q d /\ allMatch q d) /\
  (filteredOrders u = map (replaceStatus X S) (filteredOrders s) /\
   forall o, In o (filteredOrders u) -> Order._id o <> X -> orderMatches q o = true).
Proof.
  intros Hsync Hok d u. subst d u. unfold filterInSync, allMatch in *.
  destruct (performDelete_success order fetched s Hok) as (-> & -> & _).
  rewrite (handleStatusChange_resume_success X S fetched s Hok). simpl.
  rewrite Hsync. repeat split.
  - apply filter_comm.
  - intros o Ho. rewrite filter_comm in Ho. now apply filter_In in Ho.
  - intros o Ho Hne. apply in_map_iff in Ho as (o0 & <- & Ho0).
    rewrite (replaceStatus_other X S o0 Hne). now apply filter_In in Ho0.
Qed.

(** C5 as stated fails: with "pending" searched and order "a" then
    set to Shipped, the filtered collection keeps a row that does not
    match, and is not the predicate applied to the canonical
    collection. *)
Lemma status_update_does_not_refilter :
  searchQuery Scenario.shippedA = "pending"%string /\
  filterInSync "pending" Scenario.searchedPending /\
  ~ allMatch "pending" Scenario.shippedA /\
  ~ filterInSync "pending" Scenario.shippedA.
Proof.
  split; [reflexivity|]. split; [reflexivity|]. split.
  - intros H. specialize (H (Order.withStatus Scenario.orderA "Shipped")).
    assert (Hin : In (Order.withStatus Scenario.orderA "Shipped")
                     (filteredOrders Scenario.shippedA)) by (left; reflexivity).
    apply H in Hin. vm_compute in Hin. discriminate.
  - unfold filterInSync. intros H.
    apply (f_equal (@length Order.t)) in H. vm_compute in H. discriminate.
Qed.

End DeleteFacts.

(** ** Auto-revert timers *)

Section TimerFacts.
Import OrderList.

Lemma timerCallback_own (t : Timer.t) (s : State) :
  statusUpdates (exec (timerCallback t) s) !! Timer.orderId t = None.
Proof. simpl. apply lookup_delete_eq. Qed.

Lemma timerCallback_other (t : Timer.t) (s : State) (id : string) :
  id <> Timer.orderId t ->
  statusUpdates (exec (timerCallback t) s) !! id = statusUpdates s !! id.
Proof. intros Hne. simpl. apply lookup_delete_ne. congruence. Qed.

Lemma fireDue_statusUpdates (time : Z) (q : list Timer.t) (s : State) (id : string) :
  statusUpdates (snd (fireDue time q s)) !! id =
    if existsb (firesFor time id) q then None else statusUpdates s !! id.
Proof.
  revert s; induction q as [|t q IH]; intros s; [reflexivity|].
  cbn [fireDue existsb]. unfold firesFor at 1.
  destruct (Timer.due t <=? time) eqn:Hdue.
  - rewrite IH. cbn [andb].
    destruct (String.eqb_spec (Timer.orderId t) id) as [Heq|Hne]; cbn [orb].
    + destruct (existsb (firesFor time id) q); [reflexivity|].
      rewrite <- Heq. apply timerCallback_own.
    + destruct (existsb (firesFor time id) q); [reflexivity|].
      apply timerCallback_other. congruence.
  - cbn [andb orb]. specialize (IH s).
    destruct (fireDue time q s) as [rest s']. exact IH.
Qed.

Lemma advanceTo_statusUpdates (time : Z) (s : State) (id : string) :
  statusUpdates (advanceTo time s) !! id =
    if existsb (firesFor time id) (timers s) then None else statusUpdates s !! id.
Proof.
  rewrite <- fireDue_statusUpdates. unfold advanceTo.
  destruct (fireDue time (timers s) s) as [rest s']. reflexivity.
Qed.

Lemma enqueue_In (t t' : Timer.t) (q : list Timer.t) :
  In t' (enqueue t q) <-> t' = t \/ In t' q.
Proof.
  induction q as [|h q IH]; simpl.
  - intuition congruence.
  - destruct (Timer.due h <=? Timer.due t); simpl; rewrite ?IH; intuition congruence.
Qed.

(** The timer set by an update, [delay] ms after [now], has fired by
    every later time and deleted the record of its id. *)
Lemma own_timer_fires (X : string) (now delay time : Z) (q : list Timer.t) :
  now + delay <= time ->
  existsb (firesFor time X) (enqueue (Timer.mk (now + delay) X) q) = true.
Proof.
  intros Hle. apply existsb_exists. exists (Timer.mk (now + delay) X). split.
  - apply enqueue_In. now left.
  - unfold firesFor. simpl. rewrite String.eqb_refl, andb_true_r. lia.
Qed.

(** Before that, no timer fires for the id unless an older timer of
    the same id is due. *)
Lemma no_timer_fires_early (X : string) (now delay time : Z) (q : list Timer.t) :
  time < now + delay ->
  (forall t, In t q -> Timer.orderId t = X -> time < Timer.due t) ->
  existsb (firesFor time X) (enqueue (Timer.mk (now + delay) X) q) = false.
Proof.
  intros Hlt Hq. apply not_true_is_false. intros H.
  apply existsb_exists in H as (t & Hin & Hf).
  unfold firesFor in Hf. apply andb_true_iff in Hf as [Hdue Hid].
  apply Z.leb_le in Hdue. apply String.eqb_eq in Hid.
  apply enqueue_In in Hin as [->|Hin].
  - simpl in Hdue. lia.
  - specialize (Hq t Hin Hid). lia.
Qed.

(** C7: after a successful update the row holds
    [{isLoading: false, error: null}] and a timer is set 2000 ms
    ahead; after a failed one it holds the error record and the timer
    is 3000 ms ahead.  Once that time has passed the record of the id
    is gone; until then it stays, unless an older timer of the same id
    fires.  A timer that fires deletes the record under its own id and
    no other. *)
Theorem status_record_auto_reverts {B : Type}
    (X S : string) (fetched : Http.Settled (Http.Response B)) (s : State) :
  let s1 := exec (handleStatusChange_resume X S fetched) s in
  let delay := if succeeded fetched then 2000 else 3000 in
  (if succeeded fetched
   then statusUpdates s1 !! X = Some (RowStatus.mk false None)
   else exists msg, statusUpdates s1 !! X = Some (RowStatus.mk false (Some msg))) /\
  timers s1 = enqueue (Timer.mk (clock s + delay) X) (timers s) /\
  clock s1 = clock s /\
  (forall time, clock s + delay <= time ->
     statusUpdates (advanceTo time s1) !! X = None) /\
  (forall time, time < clock s + delay ->
     (forall t, In t (timers s) -> Timer.orderId t = X -> time < Timer.due t) ->
     statusUpdates (advanceTo time s1) !! X = statusUpdates s1 !! X) /\
  (forall (t : Timer.t) (s0 : State),
     statusUpdates (exec (timerCallback t) s0) !! Timer.orderId t = None /\
     forall id, id <> Timer.orderId t ->
       statusUpdates (exec (timerCallback t) s0) !! id = statusUpdates s0 !! id).
Proof.
  intros s1 delay.
  assert (Hrec : (if succeeded fetched
                  then statusUpdates s1 !! X = Some (RowStatus.mk false None)
                  else exists msg,
                    statusUpdates s1 !! X = Some (RowStatus.mk false (Some msg))) /\
                 timers s1 = enqueue (Timer.mk (clock s + delay) X) (timers s) /\
                 clock s1 = clock s).
  { subst s1 delay. destruct (succeeded fetched) eqn:Hs.
    - rewrite (handleStatusChange_resume_success X S fetched s Hs). simpl.
      split; [apply lookup_insert_eq | split; reflexivity].
    - destruct (handleStatusChange_resume_failure X S fetched s Hs) as [msg ->]. simpl.
      split; [exists msg; apply lookup_insert_eq | split; reflexivity]. }
  destruct Hrec as (Hrow & Htimers & Hclock).
  split; [exact Hrow|]. split; [exact Htimers|]. split; [exact Hclock|].
  split; [|split].
  - intros time Hle. rewrite advanceTo_statusUpdates, Htimers.
    now rewrite own_timer_fires.
  - intros time Hlt Hold. rewrite advanceTo_statusUpdates, Htimers.
    now rewrite no_timer_fires_early.
  - intros t s0. split; [apply timerCallback_own|].
    intros id Hne. now apply timerCallback_other.
Qed.

End TimerFacts.

(** ** Product browse overlay *)

Section BrowseFacts.
Import OrderList.

Lemma goToNextProduct_index (s : State) :
  1 < jsLength (ProductModalState.products (productModal s)) ->
  exec goToNextProduct s =
    mkState (orders s) (filteredOrders s) (isLoading s) (error s)
      (searchQuery s) (statusUpdates s) (productModal s)
      (Z.rem (currentProductIndex s + 1)
             (jsLength (ProductModalState.products (productModal s))))
      0 (confirmation s) (clock s) (timers s).
Proof.
  intros Hn. apply Z.ltb_lt in Hn. unfold goToNextProduct. run_handler.
  rewrite Hn. reflexivity.
Qed.

Lemma goToPrevProduct_index (s : State) :
  1 < jsLength (ProductModalState.products (productModal s)) ->
  exec goToPrevProduct s =
    mkState (orders s) (filteredOrders s) (isLoading s) (error s)
      (searchQuery s) (statusUpdates s) (productModal s)
      (Z.rem (currentProductIndex s - 1 +
              jsLength (ProductModalState.products (productModal s)))
             (jsLength (ProductModalState.products (productModal s))))
      0 (confirmation s) (clock s) (timers s).
Proof.
  intros Hn. apply Z.ltb_lt in Hn. unfold goToPrevProduct. run_handler.
  rewrite Hn. reflexivity.
Qed.

Lemma goToNextProduct_productModal (s : State) :
  productModal (exec goToNextProduct s) = productModal s.
Proof.
  unfold goToNextProduct. run_handler.
  destruct (1 <? jsLength (ProductModalState.products (productModal s))); reflexivity.
Qed.

(** C8: over an item sequence of length [n > 1], from an index
    [i >= 0], next moves the item index to [(i + 1) mod n] and prev to
    [(i - 1 + n) mod n]; with [n <= 1] both leave the state as it is.
    With three items and the index at 0, three nexts lead back to 0 and
    one prev leads to 2. *)
Theorem product_navigation_is_circular (s : State) :
  let n := jsLength (ProductModalState.products (productModal s)) in
  let i := currentProductIndex s in
  (1 < n -> 0 <= i ->
     currentProductIndex (exec goToNextProduct s) = (i + 1) mod n /\
     currentProductIndex (exec goToPrevProduct s) = (i - 1 + n) mod n) /\
  (n <= 1 -> exec goToNextProduct s = s /\ exec goToPrevProduct s = s) /\
  (n = 3 -> i = 0 ->
     currentProductIndex
       (exec goToNextProduct (exec goToNextProduct (exec goToNextProduct s))) = 0 /\
     currentProductIndex (exec goToPrevProduct s) = 2).
Proof.
  intros n i. subst n i. split; [|split].
  - intros Hn Hi.
    rewrite (goToNextProduct_index s Hn), (goToPrevProduct_index s Hn).
    cbn [currentProductIndex].
    split; apply Z.rem_mod_nonneg; lia.
  - intros Hn. apply Z.ltb_ge in Hn.
    unfold goToNextProduct, goToPrevProduct. run_handler. rewrite Hn.
    destruct s; auto.
  - intros Hn Hi.
    assert (H1 : 1 < jsLength (ProductModalState.products (productModal s))) by lia.
    rewrite (goToPrevProduct_index s H1). cbn [currentProductIndex].
    rewrite Hn, Hi. split; [|reflexivity].
    rewrite goToNextProduct_index by (rewrite !goToNextProduct_productModal; lia).
    cbn [currentProductIndex]. rewrite !goToNextProduct_productModal.
    rewrite goToNextProduct_index by (rewrite goToNextProduct_productModal; lia).
    cbn [currentProductIndex]. rewrite goToNextProduct_productModal.
    rewrite (goToNextProduct_index s H1).
    cbn [currentProductIndex]. rewrite Hn, Hi. reflexivity.
Qed.

End BrowseFacts.

(** ** Worked instances *)

Section Instances.
Import OrderList Scenario.

(** C1 on the two loaded orders: "a" goes to Shipped, "b" stays. *)
Lemma status_update_success_instance :
  succeeded okResponse = true /\
  replacedById "a" "Shipped" (orders searchedPending)
    (orders (exec (handleStatusChange_resume "a" "Shipped" okResponse) searchedPending)) /\
  replacedById "a" "Shipped" (filteredOrders searchedPending)
    (filteredOrders
       (exec (handleStatusChange_resume "a" "Shipped" okResponse) searchedPending)).
Proof.
  split; [reflexivity|].
  apply (status_update_success_replaces_by_id "a" "Shipped" okResponse searchedPending).
  reflexivity.
Defined.


(** C5 on the search for "pending": deleting "a" keeps the filtered
    collection in sync. *)
Lemma canonical_change_instance :
  filterInSync "pending" searchedPending /\
  succeeded okResponse = true /\
  filterInSync "pending" (exec (performDelete orderA okResponse) searchedPending) /\
  filteredOrders (exec (handleStatusChange_resume "a" "Shipped" okResponse) searchedPending)
    = map (replaceStatus "a" "Shipped") (filteredOrders searchedPending).
Proof.
  split; [reflexivity|]. split; [reflexivity|].
  destruct (canonical_change_reaches_filtered_by_id
              "pending" searchedPending orderA "a" "Shipped" okResponse
              eq_refl eq_refl)
    as ((Hsync & _) & (Hmap & _)).
  split; [exact Hsync | exact Hmap].
Defined.


(** C7 on order "a": the success record is there at 1999 ms and gone
    at 2000 ms. *)
Lemma status_record_instance :
  statusUpdates
    (advanceTo 2000 (exec (handleStatusChange_resume "a" "Shipped" okResponse) loaded))
    !! "a" = None /\
  statusUpdates
    (advanceTo 1999 (exec (handleStatusChange_resume "a" "Shipped" okResponse) loaded))
    !! "a" =
  statusUpdates (exec (handleStatusChange_resume "a" "Shipped" okResponse) loaded) !! "a".
Proof.
  destruct (status_record_auto_reverts "a" "Shipped" okResponse loaded)
    as (_ & _ & _ & Hgone & Hstays & _).
  split.
  - apply Hgone. simpl. lia.
  - apply Hstays.
    + simpl. lia.
    + simpl. intros t [].
Defined.

(** C8 on three items and on one. *)
Lemma product_navigation_instance :
  currentProductIndex (exec goToNextProduct browsingThree) = 1 /\
  currentProductIndex (exec goToPrevProduct browsingThree) = 2 /\
  exec goToNextProduct browsingOne = browsingOne.
Proof.
  destruct (product_navigation_is_circular browsingThree) as (Hstep & _ & Hthree).
  destruct (product_navigation_is_circular browsingOne) as (_ & Hone & _).
  assert (Hn : 1 < jsLength (ProductModalState.products (productModal browsingThree)))
    by reflexivity.
  assert (Hi : 0 <= currentProductIndex browsingThree) by (vm_compute; discriminate).
  assert (H1 : jsLength (ProductModalState.products (productModal browsingOne)) <= 1)
    by (vm_compute; discriminate).
  split; [|split].
  - exact (proj1 (Hstep Hn Hi)).
  - exact (proj2 (Hthree eq_refl eq_refl)).
  - exact (proj1 (Hone H1)).
Defined.


End Instances.

(** * Further properties of the handlers *)

(** ** Image navigation and the overlay indices *)

Section OverlayFacts.
Import OrderList.

Lemma rem_in_range (n a : Z) : 0 < n -> 0 <= a -> 0 <= Z.rem a n < n.
Proof.
  intros Hn Ha. rewrite Z.rem_mod_nonneg by lia. apply Z.mod_pos_bound. lia.
Qed.

Lemma goToNextImage_exec (s : State) (p : Product.t) :
  currentProduct s = Some p ->
  exec goToNextImage s =
    if 1 <? jsLength (Product.images p)
    then mkState (orders s) (filteredOrders s) (isLoading s) (error s)
           (searchQuery s) (statusUpdates s) (productModal s)
           (currentProductIndex s)
           (Z.rem (currentImageIndex s + 1) (jsLength (Product.images p)))
           (confirmation s) (clock s) (timers s)
    else s.
Proof.
  intros Hp. unfold goToNextImage. run_handler. rewrite Hp.
  destruct (1 <? jsLength (Product.images p)); reflexivity.
Qed.

Lemma goToPrevImage_exec (s : State) (p : Product.t) :
  currentProduct s = Some p ->
  exec goToPrevImage s =
    if 1 <? jsLength (Product.images p)
    then mkState (orders s) (filteredOrders s) (isLoading s) (error s)
           (searchQuery s) (statusUpdates s) (productModal s)
           (currentProductIndex s)
           (Z.rem (currentImageIndex s - 1 + jsLength (Product.images p))
                  (jsLength (Product.images p)))
           (confirmation s) (clock s) (timers s)
    else s.
Proof.
  intros Hp. unfold goToPrevImage. run_handler. rewrite Hp.
  destruct (1 <? jsLength (Product.images p)); reflexivity.
Qed.

Lemma image_navigation_without_item (s : State) :
  currentProduct s = None ->
  exec goToNextImage s = s /\ exec goToPrevImage s = s.
Proof.
  intros Hp. unfold goToNextImage, goToPrevImage. run_handler. rewrite Hp. auto.
Qed.

Lemma currentProduct_frame (s : State) (j : Z) (p : Product.t) :
  currentProduct s = Some p ->
  currentProduct
    (mkState (orders s) (filteredOrders s) (isLoading s) (error s)
       (searchQuery s) (statusUpdates s) (productModal s)
       (currentProductIndex s) j (confirmation s) (clock s) (timers s))
  = Some p.
Proof. intros Hp. exact Hp. Qed.

End OverlayFacts.

(** ** Invariants of the order list *)

Section MachineFacts.
Import OrderList.

(** A property that holds initially and that every event keeps holds
    after every trace. *)
Lemma run_invariant (P : State -> Prop) :
  P initialState ->
  (forall e s, P s -> P (step e s)) ->
  forall events, P (run events initialState).
Proof.
  intros Hinit Hstep events. unfold run.
  generalize initialState Hinit. induction events as [|e events IH]; intros s Hs.
  - exact Hs.
  - simpl. apply IH. now apply Hstep.
Qed.

(** Expiring timers write [statusUpdates] and nothing else. *)
Lemma fireDue_frame (time : Z) (q : list Timer.t) (s : State) :
  let s' := snd (fireDue time q s) in
  orders s' = orders s /\ filteredOrders s' = filteredOrders s /\
  isLoading s' = isLoading s /\ error s' = error s /\
  searchQuery s' = searchQuery s /\ productModal s' = productModal s /\
  currentProductIndex s' = currentProductIndex s /\
  currentImageIndex s' = currentImageIndex s /\
  confirmation s' = confirmation s.
Proof.
  revert s; induction q as [|t q IH]; intros s; simpl; [tauto|].
  destruct (Timer.due t <=? time).
  - specialize (IH (exec (timerCallback t) s)). simpl in IH. exact IH.
  - specialize (IH s). simpl in IH.
    destruct (fireDue time q s) as [rest s']. exact IH.
Qed.

Lemma fireDue_rest (time : Z) (q : list Timer.t) (s : State) :
  fst (fireDue time q s) = List.filter (fun t => negb (Timer.due t <=? time)) q.
Proof.
  revert s; induction q as [|t q IH]; intros s; simpl; [reflexivity|].
  destruct (Timer.due t <=? time); simpl.
  - apply IH.
  - specialize (IH s). destruct (fireDue time q s) as [rest s']. simpl in *.
    now rewrite IH.
Qed.

Lemma advanceTo_frame (time : Z) (s : State) :
  orders (advanceTo time s) = orders s /\
  filteredOrders (advanceTo time s) = filteredOrders s /\
  isLoading (advanceTo time s) = isLoading s /\
  error (advanceTo time s) = error s /\
  searchQuery (advanceTo time s) = searchQuery s /\
  productModal (advanceTo time s) = productModal s /\
  currentProductIndex (advanceTo time s) = currentProductIndex s /\
  currentImageIndex (advanceTo time s) = currentImageIndex s /\
  confirmation (advanceTo time s) = confirmation s.
Proof.
  pose proof (fireDue_frame time (timers s) s) as H. unfold advanceTo.
  destruct (fireDue time (timers s) s) as [rest s']. exact H.
Qed.

Lemma advanceTo_timers (time : Z) (s : State) :
  timers (advanceTo time s) =
    List.filter (fun t => negb (Timer.due t <=? time)) (timers s) /\
  clock (advanceTo time s) = Z.max (clock s) time.
Proof.
  pose proof (fireDue_rest time (timers s) s) as H. unfold advanceTo.
  destruct (fireDue time (timers s) s) as [rest s']. simpl in *. auto.
Qed.

(** Only the overlay handlers touch the overlay. *)
Lemma step_overlay_frame (e : Event) (s : State) :
  match e with
  | ProductsViewed _ | ProductModalClosed
  | NextProduct | PrevProduct | NextImage | PrevImage => True
  | _ =>
      productModal (step e s) = productModal s /\
      currentProductIndex (step e s) = currentProductIndex s /\
      currentImageIndex (step e s) = currentImageIndex s
  end.
Proof.
  destruct e; try exact I; cbn [step]; try (simpl; tauto).
  - destruct fetched as [[[] [envelope|?]]|?];
      unfold loadData_resume; run_handler; auto.
    destruct (String.eqb (Http.status envelope) "SUCCESS"); simpl; auto.
  - unfold handleStatusChange_resume. destruct fetched as [[[] ?]|?]; run_handler; auto.
  - pose proof (advanceTo_frame time s). tauto.
  - unfold performDelete. destruct fetched as [[[] ?]|?]; run_handler; auto.
Qed.

Lemma indicesInRange_ext (s s' : State) :
  ProductModalState.products (productModal s') =
    ProductModalState.products (productModal s) ->
  currentProductIndex s' = currentProductIndex s ->
  currentImageIndex s' = currentImageIndex s ->
  indicesInRange s -> indicesInRange s'.
Proof.
  unfold indicesInRange, imagesOfCurrent, currentProduct.
  intros -> -> ->. auto.
Qed.

Lemma indicesInRange_step (e : Event) (s : State) :
  indicesInRange s -> indicesInRange (step e s).
Proof.
  intros H. pose proof (step_overlay_frame e s) as Hf.
  destruct e;
    try (destruct Hf as (Hm & Hi & Hj);
         apply (indicesInRange_ext s); [now rewrite Hm | exact Hi | exact Hj | exact H]);
    clear Hf; cbn [step].
  - (* ProductsViewed *)
    unfold indicesInRange. simpl. lia.
  - (* ProductModalClosed *)
    apply (indicesInRange_ext s); auto.
  - (* NextProduct *)
    destruct (Z.ltb_spec 1 (jsLength (ProductModalState.products (productModal s))))
      as [Hn|Hn].
    + rewrite (goToNextProduct_index s Hn). destruct H as [Hi _].
      unfold indicesInRange. cbn [currentProductIndex currentImageIndex productModal].
      pose proof (rem_in_range
                    (jsLength (ProductModalState.products (productModal s)))
                    (currentProductIndex s + 1)). lia.
    + apply Z.ltb_ge in Hn. unfold goToNextProduct. run_handler. rewrite Hn.
      exact H.
  - (* PrevProduct *)
    destruct (Z.ltb_spec 1 (jsLength (ProductModalState.products (productModal s))))
      as [Hn|Hn].
    + rewrite (goToPrevProduct_index s Hn). destruct H as [Hi _].
      unfold indicesInRange. cbn [currentProductIndex currentImageIndex productModal].
      pose proof (rem_in_range
                    (jsLength (ProductModalState.products (productModal s)))
                    (currentProductIndex s - 1 +
                     jsLength (ProductModalState.products (productModal s)))). lia.
    + apply Z.ltb_ge in Hn. unfold goToPrevProduct. run_handler. rewrite Hn.
      exact H.
  - (* NextImage *)
    destruct (currentProduct s) as [p|] eqn:Hp.
    + rewrite (goToNextImage_exec s p Hp).
      destruct (Z.ltb_spec 1 (jsLength (Product.images p))) as [Hm|Hm]; [|exact H].
      destruct H as [Hi Hj]. unfold indicesInRange, imagesOfCurrent in *.
      rewrite (currentProduct_frame s _ p Hp). rewrite Hp in Hj.
      cbn [currentProductIndex currentImageIndex productModal].
      pose proof (rem_in_range (jsLength (Product.images p))
                    (currentImageIndex s + 1)). lia.
    + now rewrite (proj1 (image_navigation_without_item s Hp)).
  - (* PrevImage *)
    destruct (currentProduct s) as [p|] eqn:Hp.
    + rewrite (goToPrevImage_exec s p Hp).
      destruct (Z.ltb_spec 1 (jsLength (Product.images p))) as [Hm|Hm]; [|exact H].
      destruct H as [Hi Hj]. unfold indicesInRange, imagesOfCurrent in *.
      rewrite (currentProduct_frame s _ p Hp). rewrite Hp in Hj.
      cbn [currentProductIndex currentImageIndex productModal].
      pose proof (rem_in_range (jsLength (Product.images p))
                    (currentImageIndex s - 1 + jsLength (Product.images p))). lia.
    + now rewrite (proj2 (image_navigation_without_item s Hp)).
Qed.

(** X1: after every trace from the initial state both overlay indices
    are in range, so an overlay opened on a non-empty item sequence
    always has a current item. *)
Theorem overlay_indices_stay_in_range (events : list Event) :
  let s := run events initialState in
  indicesInRange s /\
  (ProductModalState.products (productModal s) = [] \/
   exists p, currentProduct s = Some p).
Proof.
  intros s.
  assert (H : indicesInRange s).
  { apply run_invariant; [|apply indicesInRange_step].
    unfold indicesInRange. simpl. lia. }
  split; [exact H|].
  destruct (ProductModalState.products (productModal s)) as [|x l] eqn:Hl; [now left|].
  right. destruct H as [[Hlo Hhi] _]. rewrite Hl in Hhi.
  unfold currentProduct, jsIndex. rewrite Hl.
  apply Z.ltb_ge in Hlo as Hlo'. rewrite Hlo'.
  destruct ((x :: l) !! Z.to_nat (currentProductIndex s)) as [item|] eqn:Hitem; [eauto|].
  apply lookup_ge_None in Hitem. unfold jsLength in Hhi. simpl in *. lia.
Qed.

Lemma sublist_map {A B : Type} (f : A -> B) (l1 l2 : list A) :
  l1 `sublist_of` l2 -> map f l1 `sublist_of` map f l2.
Proof. induction 1; simpl; now constructor. Qed.

Lemma sublist_filter_both {A : Type} (p : A -> bool) (l1 l2 : list A) :
  l1 `sublist_of` l2 -> List.filter p l1 `sublist_of` List.filter p l2.
Proof.
  induction 1 as [|x l1 l2 _ IH|x l1 l2 _ IH]; simpl.
  - constructor.
  - destruct (p x); [now constructor | exact IH].
  - destruct (p x); [now constructor | exact IH].
Qed.

(** Only a settled load, status update or delete and a search write the
    collections. *)
Lemma step_collections_frame (e : Event) (s : State) :
  match e with
  | LoadSettled _ | StatusSettled _ _ _ | DeleteSettled _ _ | SearchFired _ => True
  | _ => orders (step e s) = orders s /\ filteredOrders (step e s) = filteredOrders s
  end.
Proof.
  destruct e; try exact I; cbn [step]; try (simpl; tauto).
  - pose proof (advanceTo_frame time s). tauto.
  - unfold goToNextProduct. run_handler.
    destruct (1 <? jsLength (ProductModalState.products (productModal s))); auto.
  - unfold goToPrevProduct. run_handler.
    destruct (1 <? jsLength (ProductModalState.products (productModal s))); auto.
  - unfold goToNextImage. run_handler.
    destruct (currentProduct s) as [p|]; auto.
    destruct (1 <? jsLength (Product.images p)); auto.
  - unfold goToPrevImage. run_handler.
    destruct (currentProduct s) as [p|]; auto.
    destruct (1 <? jsLength (Product.images p)); auto.
Qed.

Lemma sublist_step (e : Event) (s : State) :
  filteredOrders s `sublist_of` orders s ->
  filteredOrders (step e s) `sublist_of` orders (step e s).
Proof.
  intros H. pose proof (step_collections_frame e s) as Hf.
  destruct e; cbv beta iota in Hf;
    try (match type of Hf with
         | _ /\ _ => destruct Hf as [Ho Hfl]; rewrite Ho, Hfl; exact H
         end);
    clear Hf; cbn [step].
  - destruct fetched as [[[] [envelope|?]]|?];
      unfold loadData_resume; run_handler; auto.
    destruct (String.eqb (Http.status envelope) "SUCCESS"); simpl; auto.
  - unfold handleStatusChange_resume.
    destruct fetched as [[[] ?]|?]; run_handler; auto.
    now apply sublist_map.
  - unfold performDelete.
    destruct fetched as [[[] ?]|?]; run_handler; auto.
    now apply sublist_filter_both.
  - run_handler. apply filter_sublist.
Qed.

(** X3: after every trace from the initial state in which each
    debounced search fires on the current canonical collection, the
    filtered collection is a sub-collection of the canonical one: every
    row on display is a record the list holds. *)
Theorem filtered_stays_within_canonical (events : list Event) :
  let s := run events initialState in
  filteredOrders s `sublist_of` orders s /\
  incl (filteredOrders s) (orders s).
Proof.
  intros s.
  assert (H : filteredOrders s `sublist_of` orders s).
  { apply (run_invariant (fun s => filteredOrders s `sublist_of` orders s));
      [constructor | apply sublist_step]. }
  split; [exact H|].
  intros o Ho. apply list_elem_of_In. apply list_elem_of_In in Ho.
  eapply elem_of_sublist; eauto.
Qed.

End MachineFacts.

(** ** Rows and their timers *)

Section RowFacts.
Import OrderList.

(** What either outcome of a settled update leaves in the row and in
    the queue. *)
Lemma handleStatusChange_resume_row {B : Type}
    (X S : string) (fetched : Http.Settled (Http.Response B)) (s : State) :
  let s1 := exec (handleStatusChange_resume X S fetched) s in
  exists r,
    RowStatus.isLoading r = false /\
    statusUpdates s1 = <[X := r]> (statusUpdates s) /\
    timers s1 =
      enqueue (Timer.mk (clock s + (if succeeded fetched then 2000 else 3000)) X)
              (timers s) /\
    clock s1 = clock s.
Proof.
  intros s1. subst s1. destruct (succeeded fetched) eqn:Hs.
  - rewrite (handleStatusChange_resume_success X S fetched s Hs).
    exists (RowStatus.mk false None). simpl. auto.
  - destruct (handleStatusChange_resume_failure X S fetched s Hs) as [msg ->].
    exists (RowStatus.mk false (Some msg)). simpl. auto.
Qed.

(** Only the status handlers and the clock touch rows and timers. *)
Lemma step_row_frame (e : Event) (s : State) :
  match e with
  | StatusSelected _ | StatusSettled _ _ _ | TimePassed _ => True
  | _ =>
      statusUpdates (step e s) = statusUpdates s /\
      timers (step e s) = timers s /\
      clock (step e s) = clock s
  end.
Proof.
  destruct e; try exact I; cbn [step]; try (simpl; tauto).
  - destruct fetched as [[[] [envelope|?]]|?];
      unfold loadData_resume; run_handler; auto.
    destruct (String.eqb (Http.status envelope) "SUCCESS"); simpl; auto.
  - unfold goToNextProduct. run_handler.
    destruct (1 <? jsLength (ProductModalState.products (productModal s))); auto.
  - unfold goToPrevProduct. run_handler.
    destruct (1 <? jsLength (ProductModalState.products (productModal s))); auto.
  - unfold goToNextImage. run_handler.
    destruct (currentProduct s) as [p|]; auto.
    destruct (1 <? jsLength (Product.images p)); auto.
  - unfold goToPrevImage. run_handler.
    destruct (currentProduct s) as [p|]; auto.
    destruct (1 <? jsLength (Product.images p)); auto.
  - unfold performDelete. destruct fetched as [[[] ?]|?]; run_handler; auto.
Qed.

Lemma timer_invariants_step (e : Event) (s : State) :
  settledMarksHaveTimers s /\ timersWithin3000 s ->
  settledMarksHaveTimers (step e s) /\ timersWithin3000 (step e s).
Proof.
  intros [Hmarks Hdue]. pose proof (step_row_frame e s) as Hf.
  unfold settledMarksHaveTimers, timersWithin3000 in *.
  destruct e; cbv beta iota in Hf;
    try (match type of Hf with
         | _ /\ _ => destruct Hf as (Hu & Ht & Hc); rewrite Hu, Ht, Hc; auto
         end);
    clear Hf; cbn [step].
  - (* StatusSelected *)
    simpl. split; [|exact Hdue]. intros id r Hr Hl.
    destruct (decide (orderId = id)) as [->|Hne].
    + rewrite lookup_insert_eq in Hr. injection Hr as <-. discriminate.
    + rewrite lookup_insert_ne in Hr by exact Hne. eauto.
  - (* StatusSettled *)
    destruct (handleStatusChange_resume_row orderId newStatus fetched s)
      as (r0 & Hl0 & -> & -> & ->).
    split.
    + intros id r Hr Hl. destruct (decide (orderId = id)) as [->|Hne].
      * eexists. split; [apply enqueue_In; left; reflexivity | reflexivity].
      * rewrite lookup_insert_ne in Hr by exact Hne.
        destruct (Hmarks id r Hr Hl) as (t & Hin & Hid).
        exists t. split; [apply enqueue_In; now right | exact Hid].
    + intros t Hin. apply enqueue_In in Hin as [->|Hin]; [|auto].
      simpl. destruct (succeeded fetched); lia.
  - (* TimePassed *)
    destruct (advanceTo_timers time s) as [-> ->]. split.
    + intros id r Hr Hl. rewrite advanceTo_statusUpdates in Hr.
      destruct (existsb (firesFor time id) (timers s)) eqn:Hfire; [discriminate|].
      destruct (Hmarks id r Hr Hl) as (t & Hin & Hid).
      exists t. split; [|exact Hid]. apply filter_In. split; [exact Hin|].
      destruct (Timer.due t <=? time) eqn:Hd; [|reflexivity]. exfalso.
      assert (Hex : existsb (firesFor time id) (timers s) = true).
      { apply existsb_exists. exists t. split; [exact Hin|].
        unfold firesFor. now rewrite Hd, Hid, String.eqb_refl. }
      congruence.
    + intros t Hin. apply filter_In in Hin as [Hin _].
      specialize (Hdue t Hin). lia.
Qed.

(** X7: a settled mark never sticks.  After every trace from the
    initial state, each row that shows the success or the error mark
    has a timer pending, no timer is due more than 3000 ms ahead, and
    so 3000 ms later every record that is left is a Loading one. *)
Theorem settled_marks_expire (events : list Event) :
  let s := run events initialState in
  settledMarksHaveTimers s /\
  timersWithin3000 s /\
  forall id,
    match statusUpdates (advanceTo (clock s + 3000) s) !! id with
    | Some r => RowStatus.isLoading r = true
    | None => True
    end.
Proof.
  intros s.
  assert (H : settledMarksHaveTimers s /\ timersWithin3000 s).
  { apply (run_invariant
             (fun s => settledMarksHaveTimers s /\ timersWithin3000 s));
      [|apply timer_invariants_step].
    split.
    - intros id r Hr. simpl in Hr. rewrite lookup_empty in Hr. discriminate.
    - intros t []. }
  destruct H as [Hmarks Hdue]. split; [exact Hmarks|]. split; [exact Hdue|].
  intros id. rewrite advanceTo_statusUpdates.
  destruct (existsb (firesFor (clock s + 3000) id) (timers s)) eqn:Hfire; [exact I|].
  destruct (statusUpdates s !! id) as [r|] eqn:Hr; [|exact I].
  destruct (RowStatus.isLoading r) eqn:Hl; [reflexivity|]. exfalso.
  destruct (Hmarks id r Hr Hl) as (t & Hin & Hid).
  assert (Hex : existsb (firesFor (clock s + 3000) id) (timers s) = true).
  { apply existsb_exists. exists t. split; [exact Hin|].
    unfold firesFor. rewrite Hid, String.eqb_refl, andb_true_r.
    apply Z.leb_le. now apply Hdue. }
  congruence.
Qed.

(** X6: the timer of an update is keyed by the id alone.  When a
    second update of the same row starts before that timer fires, the
    row is Loading, its select disabled; once the timer of the first
    update is due it deletes that Loading record, and the select is
    enabled again while the second request is still in flight. *)
Theorem older_timer_clears_loading_row {B : Type}
    (item : Order.t) (S : string) (fetched : Http.Settled (Http.Response B))
    (s : State) :
  let X := Order._id item in
  let delay := if succeeded fetched then 2000 else 3000 in
  let s2 := exec (handleStatusChange_begin X)
              (exec (handleStatusChange_resume X S fetched) s) in
  statusUpdates s2 !! X = Some (RowStatus.mk true None) /\
  StatusCell.disabled (statusCell s2 item) = true /\
  statusUpdates (advanceTo (clock s + delay) s2) !! X = None /\
  StatusCell.disabled (statusCell (advanceTo (clock s + delay) s2) item) = false /\
  StatusCell.spinner (statusCell (advanceTo (clock s + delay) s2) item) = false.
Proof.
  intros X delay s2.
  destruct (handleStatusChange_resume_row X S fetched s) as (r & _ & Hu & Ht & Hc).
  assert (H1 : statusUpdates s2 !! X = Some (RowStatus.mk true None))
    by (subst s2; simpl; apply lookup_insert_eq).
  assert (H2 : statusUpdates (advanceTo (clock s + delay) s2) !! X = None).
  { rewrite advanceTo_statusUpdates.
    assert (Hq : timers s2 = enqueue (Timer.mk (clock s + delay) X) (timers s))
      by (subst s2; simpl; exact Ht).
    rewrite Hq, own_timer_fires by lia. reflexivity. }
  unfold statusCell. cbn [StatusCell.disabled StatusCell.spinner]. fold X.
  rewrite H1, H2. auto.
Qed.

End RowFacts.

(** ** How updates, deletes and searches compose *)

Section CompositionFacts.
Import OrderList.









Lemma replaceStatus_id (X S : string) (o : Order.t) :
  Order._id (replaceStatus X S o) = Order._id o.
Proof. unfold replaceStatus. destruct (String.eqb (Order._id o) X); reflexivity. Qed.

Lemma map_replaceStatus_absent (X S : string) (l : list Order.t) :
  map (replaceStatus X S) (List.filter (differsFrom Order._id X) l) =
  List.filter (differsFrom Order._id X) l.
Proof.
  induction l as [|o l IH]; simpl; [reflexivity|].
  destruct (differsFrom Order._id X o) eqn:Hd; simpl; [|exact IH].
  unfold differsFrom in Hd. apply negb_true_iff in Hd.
  unfold replaceStatus at 1. rewrite Hd. f_equal. exact IH.
Qed.

Lemma filter_map_replaceStatus (X S : string) (l : list Order.t) :
  List.filter (differsFrom Order._id X) (map (replaceStatus X S) l) =
  List.filter (differsFrom Order._id X) l.
Proof.
  induction l as [|o l IH]; simpl; [reflexivity|].
  assert (Hsame : differsFrom Order._id X (replaceStatus X S o) =
                  differsFrom Order._id X o)
    by (unfold differsFrom; now rewrite replaceStatus_id).
  rewrite Hsame. destruct (differsFrom Order._id X o) eqn:Hd; [|exact IH].
  unfold differsFrom in Hd. apply negb_true_iff in Hd.
  unfold replaceStatus at 1. rewrite Hd. f_equal. exact IH.
Qed.

(** X5: a delete wins over an update of the same row.  With both
    calls succeeding, the collections end as the delete alone leaves
    them, whether the update settles after the delete (it does not
    bring the row back) or before it. *)
Theorem delete_wins_over_update {B : Type}
    (order : Order.t) (S : string)
    (fd fu : Http.Settled (Http.Response B)) (s : State) :
  succeeded fd = true -> succeeded fu = true ->
  let deleted := exec (performDelete order fd) s in
  let late := exec (handleStatusChange_resume (Order._id order) S fu) deleted in
  let early := exec (performDelete order fd)
                 (exec (handleStatusChange_resume (Order._id order) S fu) s) in
  orders late = orders deleted /\ filteredOrders late = filteredOrders deleted /\
  orders early = orders deleted /\ filteredOrders early = filteredOrders deleted /\
  (forall o, In o (orders late) -> Order._id o <> Order._id order).
Proof.
  intros Hd Hu deleted late early. subst deleted late early.
  rewrite !(handleStatusChange_resume_success _ _ fu) by exact Hu.
  destruct (performDelete_success order fd s Hd) as (Ho & Hf & _).
  destruct (performDelete_success order fd
              (mkState (map (replaceStatus (Order._id order) S) (orders s))
                 (map (replaceStatus (Order._id order) S) (filteredOrders s))
                 (isLoading s) (error s) (searchQuery s)
                 (<[Order._id order := RowStatus.mk false None]> (statusUpdates s))
                 (productModal s) (currentProductIndex s) (currentImageIndex s)
                 (confirmation s) (clock s)
                 (enqueue (Timer.mk (clock s + 2000) (Order._id order)) (timers s)))
              Hd) as (Ho' & Hf' & _).
  cbn [orders filteredOrders] in *. rewrite Ho, Hf, Ho', Hf'.
  rewrite !map_replaceStatus_absent, !filter_map_replaceStatus.
  repeat split.
  intros o Hin. apply filter_In in Hin as [_ Hdiff]. unfold differsFrom in Hdiff.
  intros Heq. now rewrite Heq, String.eqb_refl in Hdiff.
Qed.

(** X4: the debounced search filters the collection its closure
    captured.  A search created before a delete and firing after it
    puts the deleted record back on display, if it matches the query:
    the row is in the filtered collection and not in the canonical
    one.  Orders and stocks alike. *)
Theorem stale_search_shows_deleted_row {B : Type}
    (q : string) (order : Order.t) (stock : StockList.Stock.t)
    (fetched : Http.Settled (Http.Response B)) (s : State) (t : StockList.State) :
  succeeded fetched = true ->
  (In order (orders s) -> orderMatches q order = true ->
   let s' := exec (runSearch (orders s) q) (exec (performDelete order fetched) s) in
   In order (filteredOrders s') /\ ~ In order (orders s')) /\
  (In stock (StockList.stocks t) -> StockList.stockMatches q stock = true ->
   let t' := exec (StockList.runSearch (StockList.stocks t) q)
               (exec (StockList.performDelete stock fetched) t) in
   In stock (StockList.filteredStocks t') /\ ~ In stock (StockList.stocks t')).
Proof.
  intros Hok. split.
  - intros Hin Hm s'. subst s'.
    destruct (performDelete_success order fetched s Hok) as (Ho & _).
    split.
    + run_handler. apply filter_In. auto.
    + change (orders (exec (runSearch (orders s) q)
                        (exec (performDelete order fetched) s)))
        with (orders (exec (performDelete order fetched) s)).
      rewrite Ho. intros Hd. apply filter_In in Hd as [_ Hd].
      unfold differsFrom in Hd. now rewrite String.eqb_refl in Hd.
  - intros Hin Hm t'. subst t'.
    destruct (stock_performDelete_success stock fetched t Hok) as (Ho & _).
    split.
    + run_handler. apply filter_In. auto.
    + change (StockList.stocks
                (exec (StockList.runSearch (StockList.stocks t) q)
                   (exec (StockList.performDelete stock fetched) t)))
        with (StockList.stocks (exec (StockList.performDelete stock fetched) t)).
      rewrite Ho. intros Hd. apply filter_In in Hd as [_ Hd].
      unfold differsFrom in Hd. now rewrite String.eqb_refl in Hd.
Qed.

End CompositionFacts.

(** ** Loading, confirming and what is on display *)

Section DisplayFacts.
Import OrderList.



End DisplayFacts.

(** ** Worked instances of the further properties *)

Section FurtherInstances.
Import OrderList Scenario.


(** X4 on order "a", the stock batch and the query "e". *)
Lemma stale_search_instance :
  In orderA
     (filteredOrders
        (exec (runSearch (orders loaded) "e")
              (exec (performDelete orderA okResponse) loaded))) /\
  In batch
     (StockList.filteredStocks
        (exec (StockList.runSearch (StockList.stocks stockLoaded) "e")
              (exec (StockList.performDelete batch okResponse) stockLoaded))).
Proof.
  destruct (stale_search_shows_deleted_row
              "e" orderA batch okResponse loaded stockLoaded eq_refl)
    as (Horder & Hstock).
  split.
  - apply Horder; [left; reflexivity | reflexivity].
  - apply Hstock; [left; reflexivity | reflexivity].
Defined.

(** X5 on order "a". *)
Lemma delete_wins_instance :
  orders (exec (handleStatusChange_resume (Order._id orderA) "Shipped" okResponse)
            (exec (performDelete orderA okResponse) loaded)) =
  orders (exec (performDelete orderA okResponse) loaded).
Proof.
  exact (proj1 (delete_wins_over_update orderA "Shipped" okResponse okResponse loaded
                  eq_refl eq_refl)).
Defined.


End FurtherInstances.
